(** * Token pooling notebook (colpali/04_token_pooling.ipynb)

    A shallow embedding of the notebook's Python functions:
    [to_bit_vectors], [pool_vectors], [index_document], [process_file],
    [create_col_pali_query_vectors] and the search cell, followed by the
    properties established about them. *)

From Stdlib Require Import ZArith List Bool Ascii String Lia.
From Stdlib Require Import Floats.PrimFloat.
From stdpp Require Import base gmap strings list.

Local Open Scope Z_scope.

(** ** Binarizer (notebook cell 1)

    Python floats are IEEE binary64 values: the kernel's primitive
    [float].  numpy arrays of one dimension are lists. *)

Module Binarizer.

(** [patch_embedding > 0]: numpy compares each component with 0.0; the
    comparison is false on zeros, negatives and NaN. *)
Definition gt0 (x : float) : bool := PrimFloat.ltb PrimFloat.zero x.

(** [np.where(patch_embedding > 0, 1, 0)]: an integer array of 0s and 1s. *)
Definition np_where_gt0 (patch_embedding : list float) : list Z :=
  map (fun x => if gt0 x then 1 else 0) patch_embedding.

(** [np.packbits] (default bit order "big"): the input is read left to
    right; every element contributes the bit [x != 0], shifted into the
    byte under construction from the right; a byte is emitted every
    eight elements and a last partial byte is shifted left to fill it
    with zero bits.  [build] is the byte under construction and [k] the
    number of bits it holds. *)
Fixpoint packbits_loop (xs : list Z) (build : Z) (k : nat) : list Z :=
  match xs with
  | [] => if Nat.eqb k 0 then [] else [Z.shiftl build (8 - Z.of_nat k)]
  | x :: rest =>
      let build' := Z.lor (Z.shiftl build 1) (if Z.eqb x 0 then 0 else 1) in
      if Nat.eqb (S k) 8 then build' :: packbits_loop rest 0 0%nat
      else packbits_loop rest build' (S k)
  end.

Definition np_packbits (xs : list Z) : list Z := packbits_loop xs 0 0%nat.

(** [.astype(np.int8)]: a uint8 value is reinterpreted as a signed
    two's-complement byte. *)
Definition astype_int8 (b : Z) : Z :=
  let m := b mod 256 in if m <? 128 then m else m - 256.

(** [.tobytes()] of an int8 array: one byte per element, its value
    modulo 256. *)
Definition tobytes (a : list Z) : list Z := map (fun v => v mod 256) a.

(** [bytes.hex()]: two lowercase hexadecimal digits per byte, the high
    nibble first. *)
Definition hexdigit (n : Z) : ascii :=
  nth (Z.to_nat n) (list_ascii_of_string "0123456789abcdef") "0"%char.

Fixpoint bytes_hex (bs : list Z) : string :=
  match bs with
  | [] => EmptyString
  | b :: rest =>
      String (hexdigit (Z.shiftr b 4))
        (String (hexdigit (Z.land b 15)) (bytes_hex rest))
  end.

(** The body of the loop of [to_bit_vectors] for one [patch_embedding]. *)
Definition binary_vector (patch_embedding : list float) : string :=
  bytes_hex (tobytes (map astype_int8 (np_packbits (np_where_gt0 patch_embedding)))).

(** [to_bit_vectors]: the loop appends one string per element of
    [embedding], in order. *)
Fixpoint to_bit_vectors_loop (embedding : list (list float))
    (embeddings : list string) : list string :=
  match embedding with
  | [] => embeddings
  | patch_embedding :: rest =>
      to_bit_vectors_loop rest (embeddings ++ [binary_vector patch_embedding])
  end.

Definition to_bit_vectors (embedding : list (list float)) : list string :=
  to_bit_vectors_loop embedding [].

End Binarizer.

(** ** Reading a bit-packed vector back

    The decoder used to state the round trip: [bytes.fromhex] followed
    by [np.unpackbits] (most significant bit first). *)

Module Decoder.






End Decoder.

(** ** The binarizer as the specification words it

    Threshold each component at zero (strictly positive gives 1, anything
    else 0), pack the bits big-endian into bytes, render as lowercase
    hex. *)

Module BinarizerSpec.

Definition sign_bit (x : float) : bool := PrimFloat.ltb PrimFloat.zero x.

(** Bit [k] of a byte (counted from the most significant one) weighs
    [2^(7-k)]. *)
Definition bit_weight (b : bool) (k : nat) : Z :=
  if b then 2 ^ (7 - Z.of_nat k) else 0.

(** Byte [j] holds components [8j .. 8j+7]; components past the end of
    the vector count as 0. *)
Definition spec_byte (bits : list bool) (j : nat) : Z :=
  fold_right Z.add 0
    (map (fun k => bit_weight (nth (8 * j + k) bits false) k) (seq 0 8)).

(** [ceil(d / 8)] bytes hold [d] bits. *)
Definition nbytes (d : nat) : nat := Nat.div (d + 7) 8.

Definition spec_bytes (bits : list bool) : list Z :=
  map (spec_byte bits) (seq 0 (nbytes (length bits))).

Definition lower_hex_digit (n : Z) : ascii :=
  if n <? 10 then ascii_of_nat (Z.to_nat (48 + n))
  else ascii_of_nat (Z.to_nat (87 + n)).

Fixpoint lower_hex (bs : list Z) : string :=
  match bs with
  | [] => EmptyString
  | b :: rest =>
      String (lower_hex_digit (b / 16))
        (String (lower_hex_digit (b mod 16)) (lower_hex rest))
  end.

Definition sign_hex (v : list float) : string :=
  lower_hex (spec_bytes (map sign_bit v)).

(** The bit [np.packbits] reads off an element. *)
Definition nz (x : Z) : bool := negb (Z.eqb x 0).

Definition is_byte (b : Z) : Prop := 0 <= b < 256.


End BinarizerSpec.

(** ** Python effects: exceptions, the search engine, the console

    The notebook's functions talk to one Elasticsearch client [es], print
    to the console and sleep.  They are modelled in a state-and-exception
    monad over a [world]: the documents stored in the engine, the outcomes
    of the requests still to come, and the trace of what has been done. *)

Module Py.

Inductive exn : Type :=
| NameError (name : string)
| IndexError
| ValueError
| TransportError (msg : string).

Inductive result (A : Type) : Type :=
| Returned (a : A)
| Raised (e : exn).
Arguments Returned {A} a.
Arguments Raised {A} e.

(** The document written by [process_file]:
    [{"pooled_col_pali_vectors": bit_vectors}]. *)
Record document : Type := { pooled_col_pali_vectors : list string }.

(** The request body built by the search cell. *)
Record es_query : Type := {
  q_source : bool;
  q_script_source : string;
  q_query_vector : list (list float);
  q_size : Z
}.

(** What [print] is called with in [index_document]. *)
Inductive message : Type :=
| MsgWarn (doc_id : string) (attempt : Z) (e : exn)
| MsgFailed (doc_id : string) (retries : Z) (e : exn).

Inductive event : Type :=
| EvExists (index id : string)
| EvIndex (index id : string) (doc : document) (ok : bool)
| EvSearch (index : string) (body : es_query) (ok : bool)
| EvPrint (msg : message)
| EvSleep (seconds : Z)
| EvCall (fn : string)
| EvDisplay (html : string).

(** [es_docs]: documents by (index, id).  [es_faults]: the outcome of the
    next requests to the engine, [Some e] for a request that fails with
    [e] and [None] for one that succeeds; requests past the end of the
    list succeed.  [trace]: the events so far, oldest first. *)
Record world : Type := {
  es_docs : gmap (string * string) document;
  es_faults : list (option exn);
  trace : list event
}.

Definition M (A : Type) : Type := world -> result A * world.

Definition ret {A} (a : A) : M A := fun w => (Returned a, w).
Definition raise {A} (e : exn) : M A := fun w => (Raised e, w).
Definition bind {A B} (m : M A) (k : A -> M B) : M B :=
  fun w => match m w with
           | (Returned a, w') => k a w'
           | (Raised e, w') => (Raised e, w')
           end.
(** [try: m except Exception as e: h e]. *)
Definition try_except {A} (m : M A) (h : exn -> M A) : M A :=
  fun w => match m w with
           | (Returned a, w') => (Returned a, w')
           | (Raised e, w') => h e w'
           end.
Definition lift {A} (r : result A) : M A := fun w => (r, w).

Definition log (ev : event) : M unit :=
  fun w => (Returned tt,
            {| es_docs := es_docs w; es_faults := es_faults w;
               trace := trace w ++ [ev] |}).

(** The outcome of the next request is taken off [es_faults]. *)
Definition next_fault : M (option exn) :=
  fun w => match es_faults w with
           | [] => (Returned None, w)
           | f :: rest =>
               (Returned f,
                {| es_docs := es_docs w; es_faults := rest; trace := trace w |})
           end.

Definition get_docs : M (gmap (string * string) document) :=
  fun w => (Returned (es_docs w), w).

Definition put_doc (index id : string) (doc : document) : M unit :=
  fun w => (Returned tt,
            {| es_docs := <[(index, id) := doc]> (es_docs w);
               es_faults := es_faults w; trace := trace w |}).

End Py.

Declare Scope py_scope.
Delimit Scope py_scope with py.
Notation "'let!' x ':=' m 'in' k" := (Py.bind m (fun x => k))
  (at level 10, x name, m at level 100, k at level 200) : py_scope.
Notation "m1 '>>' m2" := (Py.bind m1 (fun _ => m2))
  (at level 100, m2 at level 200, right associativity) : py_scope.

(** ** The Elasticsearch client [es] *)

Module Es.
Import Py.
Local Open Scope py_scope.

Inductive write_kind : Type := created | updated.

(** The response of a successful write. *)
Record write_result : Type := {
  wr_index : string;
  wr_id : string;
  wr_result : write_kind
}.

(** [es.exists(index=..., id=...)]. *)
Definition exists_ (index id : string) : M bool :=
  let! f := next_fault in
  log (EvExists index id) >>
  match f with
  | Some e => raise e
  | None =>
      let! docs := get_docs in
      ret (bool_decide (is_Some (docs !! (index, id))))
  end.

(** [es_client.index(index=..., id=..., document=...)]: a write by
    identifier; an existing document is replaced. *)
Definition index (index id : string) (doc : document) : M write_result :=
  let! f := next_fault in
  match f with
  | Some e => log (EvIndex index id doc false) >> raise e
  | None =>
      let! docs := get_docs in
      log (EvIndex index id doc true) >>
      put_doc index id doc >>
      ret {| wr_index := index; wr_id := id;
             wr_result := if bool_decide (is_Some (docs !! (index, id)))
                          then updated else created |}
  end.

(** [es.search(index=..., body=...)]: the identifiers of the hits, as
    ranked by the engine ([rank], external). *)
Definition search
    (rank : gmap (string * string) document -> string -> es_query -> list string)
    (index : string) (body : es_query) : M (list string) :=
  let! f := next_fault in
  match f with
  | Some e => log (EvSearch index body false) >> raise e
  | None =>
      let! docs := get_docs in
      log (EvSearch index body true) >>
      ret (rank docs index body)
  end.

End Es.

(** ** The notebook's global names

    Every name bound at the top level of the cells once all of them have
    run: imports, functions and assignments (a superset of what is bound
    when cell 5 calls [index_document]).  Names of Python's builtins
    ([print], [range], [Exception], [list], [open], [len]) resolve apart
    from these.  No cell has an [import time]. *)

Module Notebook.
Import Py.
Local Open Scope string_scope.
Local Open Scope Z_scope.
Local Open Scope py_scope.

Definition notebook_globals : list string :=
  [ (* cell 1 *) "np"; "to_bit_vectors";
    (* cell 3 *) "torch"; "HierarchicalTokenPooler"; "pooler"; "pool_vectors";
    (* cell 4 *) "os"; "load_dotenv"; "Elasticsearch"; "ELASTIC_API_KEY";
                 "ELASTIC_HOST"; "INDEX_NAME"; "es"; "mappings";
                 "index_document";
    (* cell 5 *) "ThreadPoolExecutor"; "tqdm"; "pickle"; "process_file";
                 "f"; "file_to_multi_vectors"; "executor";
    (* cell 6 *) "Image"; "ColPali"; "ColPaliProcessor"; "model_name";
                 "model"; "col_pali_processor";
                 "create_col_pali_query_vectors";
    (* cell 7 *) "display"; "HTML"; "json"; "DOCUMENT_DIR"; "query";
                 "query_vector"; "es_query"; "results"; "image_ids"; "html";
                 "image_id"; "image_path" ].

Definition is_bound (globals : list string) (name : string) : bool :=
  existsb (String.eqb name) globals.

(** Looking a global name up: [NameError] when it is not bound. *)
Definition lookup_global (globals : list string) (name : string) : M unit :=
  if is_bound globals name then ret tt else raise (NameError name).

(** [time.sleep(seconds)]: the name [time] is resolved first; a negative
    duration is a [ValueError]. *)
Definition time_sleep (globals : list string) (seconds : Z) : M unit :=
  lookup_global globals "time" >>
  if seconds <? 0 then raise ValueError else log (EvSleep seconds).

Definition print (msg : message) : M unit := log (EvPrint msg).

Definition INDEX_NAME : string := "searchlabs-colpali-token-pooling".

(** *** Cell 4: [index_document]

    [attempt] runs over [range(1, retries + 1)]; [remaining] counts the
    iterations left.  A function that leaves the loop without returning
    returns [None]. *)
Fixpoint index_document_loop (globals : list string)
    (index doc_id : string) (document : document)
    (retries initial_backoff : Z) (attempt : Z) (remaining : nat)
    : M (option Es.write_result) :=
  match remaining with
  | O => ret None
  | S remaining' =>
      try_except
        (let! r := Es.index index doc_id document in ret (Some r))
        (fun e =>
           if attempt <? retries then
             let wait_time := initial_backoff * 2 ^ (attempt - 1) in
             print (MsgWarn doc_id attempt e) >>
             time_sleep globals wait_time >>
             index_document_loop globals index doc_id document
               retries initial_backoff (attempt + 1) remaining'
           else
             print (MsgFailed doc_id retries e) >>
             raise e)
  end.

Definition index_document (globals : list string)
    (index doc_id : string) (document : document)
    (retries initial_backoff : Z) : M (option Es.write_result) :=
  index_document_loop globals index doc_id document retries initial_backoff
    1 (Z.to_nat retries).

Definition default_retries : Z := 10.
Definition default_initial_backoff : Z := 1.

(** A call of one of the notebook's pure functions, recorded in the
    trace. *)
Definition call {A} (fn : string) (value : A) : M A :=
  log (EvCall fn) >> ret value.

Section Externals.

(** External components, taken as they are:
    - [pool_sequence pool_factor]: what the [HierarchicalTokenPooler]
      built with [pool_factor] does to one sequence of a batch;
    - [float32]: the rounding of a Python float to torch's default
      dtype, done by [torch.tensor];
    - [col_pali]: [col_pali_processor.process_queries] followed by the
      ColPali model and [.tolist()]: for a batch of query strings, one
      sequence of token vectors per query (a tensor of shape batch x
      tokens x dimension);
    - [rank]: the engine's scoring of a search request. *)
Variable pool_sequence : Z -> list (list float) -> list (list float).
Variable float32 : float -> float.
Variable col_pali : list string -> list (list (list float)).
Variable rank :
  gmap (string * string) document -> string -> es_query -> list string.

(** *** Cell 3: [pool_vectors] *)

Definition pool_factor : Z := 3.

Definition torch_tensor (embedding : list (list float)) : list (list float) :=
  map (map float32) embedding.

Definition unsqueeze0 (t : list (list float)) : list (list (list float)) := [t].

Definition pool_embeddings (batch : list (list (list float)))
    : list (list (list float)) :=
  map (pool_sequence pool_factor) batch.

(** [squeeze(0)] removes a first dimension of size 1, which is what
    [unsqueeze0] made. *)
Definition squeeze0 (t : list (list (list float))) : list (list float) :=
  match t with
  | [x] => x
  | _ => []
  end.

Definition pool_vectors (embedding : list (list float)) : list (list float) :=
  let tensor := unsqueeze0 (torch_tensor embedding) in
  let pooled := pool_embeddings tensor in
  squeeze0 pooled.

(** *** Cell 5: [process_file] and the indexing run *)

Definition process_file (globals : list string)
    (file_name : string) (vectors : list (list float)) : M unit :=
  let! present := Es.exists_ INDEX_NAME file_name in
  if present then ret tt
  else
    let! pooled_vectors := call "pool_vectors" (pool_vectors vectors) in
    let! bit_vectors :=
      call "to_bit_vectors" (Binarizer.to_bit_vectors pooled_vectors) in
    index_document globals INDEX_NAME file_name
      {| pooled_col_pali_vectors := bit_vectors |}
      default_retries default_initial_backoff >>
    ret tt.

(** [executor.map] of [process_file] over the items: every item is
    submitted; the outcome of each call, a return or an exception,
    stays in its future.  The calls are taken one after the other. *)
Fixpoint executor_map (globals : list string)
    (items : list (string * list (list float))) : M (list (result unit)) :=
  match items with
  | [] => ret []
  | (file_name, vectors) :: rest =>
      fun w =>
        let (r, w1) := process_file globals file_name vectors w in
        bind (executor_map globals rest) (fun rs => ret (r :: rs)) w1
  end.

(** *** Cell 6: [create_col_pali_query_vectors] *)

Definition create_col_pali_query_vectors (query : string)
    : result (list (list float)) :=
  match col_pali [query] with
  | first :: _ => Returned first
  | [] => Raised IndexError
  end.

(** *** Cell 7: the search *)

Definition DOCUMENT_DIR : string := "searchlabs-colpali".

Definition dquote : string := String (ascii_of_nat 34) EmptyString.

(** [os.path.join] of two components. *)
Definition os_path_join (a b : string) : string :=
  if String.prefix "/" b then b
  else if String.eqb a "" then b
  else if String.eqb (String.substring (String.length a - 1) 1 a) "/"
       then a ++ b
       else a ++ "/" ++ b.

Definition img_tag (image_id : string) : string :=
  let image_path := os_path_join DOCUMENT_DIR image_id in
  "<img src=" ++ dquote ++ image_path ++ dquote
  ++ " alt=" ++ dquote ++ image_id ++ dquote
  ++ " style=" ++ dquote
  ++ "max-width:300px; height:auto; margin:10px;" ++ dquote ++ ">".

Definition gallery (image_ids : list string) : string :=
  fold_left (fun html image_id => html ++ img_tag image_id) image_ids
    "<div style='display: flex; flex-wrap: wrap; align-items: flex-start;'>"
  ++ "</div>".

Definition make_es_query (query_vector : list (list float)) : es_query :=
  {| q_source := false;
     q_script_source :=
       "maxSimDotProduct(params.query_vector, 'pooled_col_pali_vectors')";
     q_query_vector := query_vector;
     q_size := 5 |}.

Definition search_cell (query : string) : M (list string) :=
  let! query_vector := lift (create_col_pali_query_vectors query) in
  let es_query := make_es_query query_vector in
  let! image_ids := Es.search rank INDEX_NAME es_query in
  log (EvDisplay (gallery image_ids)) >>
  ret image_ids.

End Externals.

End Notebook.

(** ** Reading traces *)

Module Trace.
Import Py.

(** A write request was sent (whatever its outcome). *)
Definition is_write (ev : event) : bool :=
  match ev with
  | EvIndex _ _ _ _ => true
  | _ => false
  end.

(** A write of the document [key = (index, id)] succeeded. *)
Definition is_write_ok (key : string * string) (ev : event) : bool :=
  match ev with
  | EvIndex index id _ true => bool_decide ((index, id) = key)
  | _ => false
  end.

Definition is_search (ev : event) : bool :=
  match ev with
  | EvSearch _ _ _ => true
  | _ => false
  end.

Definition count (p : event -> bool) (tr : list event) : nat :=
  length (List.filter p tr).

(** The durations slept, oldest first. *)
Definition sleeps (tr : list event) : list Z :=
  flat_map (fun ev => match ev with EvSleep s => [s] | _ => [] end) tr.

(** The functions of the notebook that were called. *)
Definition calls (tr : list event) : list string :=
  flat_map (fun ev => match ev with EvCall fn => [fn] | _ => [] end) tr.

(** What a run of failed writes that are retried leaves in the trace:
    for the failure [e] of attempt number [attempt], the request, the
    warning and the sleep. *)
Fixpoint failed_attempts (index doc_id : string) (doc : document)
    (initial_backoff attempt : Z) (errs : list exn) : list event :=
  match errs with
  | [] => []
  | e :: rest =>
      [EvIndex index doc_id doc false;
       EvPrint (MsgWarn doc_id attempt e);
       EvSleep (initial_backoff * 2 ^ (attempt - 1))]
      ++ failed_attempts index doc_id doc initial_backoff (attempt + 1) rest
  end.

(** The effect of a call that may write the document [key]: the trace
    grows by [evs], no other document is written, and [key] is written
    successfully at most once, exactly when it is stored. *)
Definition write_effect (key : string * string)
    (w : world) (evs : list event) (w' : world) : Prop :=
  trace w' = trace w ++ evs
  /\ (forall key', key' <> key -> count (is_write_ok key') evs = 0%nat)
  /\ ((count (is_write_ok key) evs = 0%nat
       /\ es_docs w' = es_docs w)
      \/ (count (is_write_ok key) evs = 1%nat
          /\ exists d, es_docs w' = <[key := d]> (es_docs w))).

(** How [process_file] ends for a stored document: it returns [None],
    unless the existence request itself fails and its error is raised. *)
Definition exists_outcome (faults : list (option exn)) : result unit :=
  match faults with
  | Some e :: _ => Raised e
  | _ => Returned tt
  end.

(** Over a run: a document that was stored stays stored, and [key] is
    written successfully either not at all, or once, when it was not
    stored before. *)
Definition indexed_at_most_once (key : string * string)
    (w : world) (evs : list event) (w' : world) : Prop :=
  (is_Some (es_docs w !! key) -> is_Some (es_docs w' !! key))
  /\ (count (is_write_ok key) evs = 0%nat
      \/ (count (is_write_ok key) evs = 1%nat
          /\ es_docs w !! key = None
          /\ is_Some (es_docs w' !! key))).

End Trace.

(** ** Sample inputs *)

Module Samples.
Import Py.
Local Open Scope string_scope.
Local Open Scope list_scope.

Definition unavailable : exn := TransportError "503 Service Unavailable".

Definition doc_a : document := {| pooled_col_pali_vectors := ["9b"; "80"] |}.

(** An empty index whose first write request fails and whose second
    succeeds. *)
Definition fails_once : world :=
  {| es_docs := ∅; es_faults := [Some unavailable; None]; trace := [] |}.

(** An empty index on which ten requests in a row fail. *)
Definition fails_ten_times : world :=
  {| es_docs := ∅; es_faults := repeat (Some unavailable) 10; trace := [] |}.

(** An index that holds ["a.png"] and ["b.png"]; the next request but
    one would fail. *)
Definition indexed_ab : world :=
  {| es_docs :=
       <[(Notebook.INDEX_NAME, "a.png") := doc_a]>
         (<[(Notebook.INDEX_NAME, "b.png") := doc_a]> ∅);
     es_faults := [None; Some unavailable];
     trace := [] |}.

Definition items_ab : list (string * list (list float)) :=
  [("a.png", [[1.5; -2]; [0.25; 3]]%float); ("b.png", [[-1; 1]]%float)].

(** Stand-ins for the external components: a pooler that keeps every
    third vector, no rounding, a model that gives every query the same
    two token vectors, an engine that ranks nothing. *)
Fixpoint every_third (l : list (list float)) : list (list float) :=
  match l with
  | a :: _ :: _ :: rest => a :: every_third rest
  | a :: _ => [a]
  | [] => []
  end.
Definition pool_stub (pool_factor : Z) (l : list (list float))
    : list (list float) := every_third l.
Definition float32_stub (x : float) : float := x.
Definition col_pali_stub (queries : list string) : list (list (list float)) :=
  map (fun _ => [[0.5; -1]; [2; 0.25]]%float) queries.
Definition rank_stub (docs : gmap (string * string) document)
    (index : string) (body : es_query) : list string := [].

End Samples.

(* ===================================================================== *)
(** * Properties *)
(* ===================================================================== *)

(** ** The binarizer on sample vectors *)

Example to_bit_vectors_ex :
  Binarizer.to_bit_vectors
    [[1.5; (-2); 0; 3; 0.25; (-0.0); 7; 1]%float; [1; (-1)]%float; []]
  = ["9b"; "80"; ""]%string.
Proof. vm_compute. reflexivity. Qed.

(** Zero, negative zero, NaN, minus infinity and the negative number
    closest to zero are not strictly positive: they give bit 0; plus
    infinity and the smallest positive number give bit 1. *)
Example to_bit_vectors_special_values :
  Binarizer.to_bit_vectors
    [[0; (-0.0); nan; neg_infinity; infinity; 0x1p-1074; (-0x1p-1074);
      0x1p1023]%float]
  = ["0d"]%string.
Proof. vm_compute. reflexivity. Qed.

(** More than one byte: twelve components give three hex digits' worth
    of bits in two bytes. *)
Example to_bit_vectors_two_bytes :
  Binarizer.to_bit_vectors
    [[1; 1; 1; 1; (-1); (-1); (-1); (-1); 1; (-1); 1; 1]%float]
  = ["f0b0"]%string.
Proof. vm_compute. reflexivity. Qed.

(** ** The binarizer refines its specification *)

Section BinarizerProofs.
Import Binarizer Decoder BinarizerSpec.

(** Lists are cut in chunks of eight, as [np.packbits] reads them. *)
Lemma list_ind8 {A} (P : list A -> Prop) :
  (forall l, (length l < 8)%nat -> P l) ->
  (forall a0 a1 a2 a3 a4 a5 a6 a7 rest,
      P rest -> P (a0 :: a1 :: a2 :: a3 :: a4 :: a5 :: a6 :: a7 :: rest)) ->
  forall l, P l.
Proof.
  intros Hshort Hchunk l.
  remember (length l) as n eqn:Hn.
  revert l Hn. induction n as [n IH] using lt_wf_ind. intros l Hn.
  destruct (Nat.lt_ge_cases (length l) 8) as [Hlt | Hge].
  - apply Hshort, Hlt.
  - do 8 (destruct l as [| ? l]; [simpl in Hge; lia |]).
    apply Hchunk. eapply IH; [| reflexivity]. subst n. simpl. lia.
Qed.

Lemma nz_where v : map nz (np_where_gt0 v) = map sign_bit v.
Proof.
  unfold np_where_gt0. rewrite map_map. apply map_ext. intros x.
  unfold sign_bit, gt0, nz. destruct (PrimFloat.ltb _ x); reflexivity.
Qed.

Ltac case_bits :=
  repeat match goal with
         | |- context [Z.eqb ?x 0] => destruct (Z.eqb x 0)
         end.

Lemma packbits_chunk x0 x1 x2 x3 x4 x5 x6 x7 rest :
  np_packbits (x0 :: x1 :: x2 :: x3 :: x4 :: x5 :: x6 :: x7 :: rest)
  = spec_byte [nz x0; nz x1; nz x2; nz x3; nz x4; nz x5; nz x6; nz x7] 0
      :: np_packbits rest.
Proof.
  unfold np_packbits. cbn [packbits_loop Nat.eqb]. f_equal.
  unfold nz. case_bits; reflexivity.
Qed.

Lemma packbits_short xs :
  (length xs < 8)%nat -> np_packbits xs = spec_bytes (map nz xs).
Proof.
  intros H.
  do 8 (destruct xs as [| ? xs];
        [unfold np_packbits, nz; cbn [packbits_loop Nat.eqb map];
         case_bits; reflexivity |]).
  simpl in H. lia.
Qed.

Lemma nbytes_chunk n : nbytes (8 + n) = S (nbytes n).
Proof.
  unfold nbytes. replace (8 + n + 7)%nat with (1 * 8 + (n + 7))%nat by lia.
  rewrite Nat.div_add_l by lia. reflexivity.
Qed.

Lemma spec_byte_chunk b0 b1 b2 b3 b4 b5 b6 b7 (rest : list bool) j :
  spec_byte (b0 :: b1 :: b2 :: b3 :: b4 :: b5 :: b6 :: b7 :: rest) (S j)
  = spec_byte rest j.
Proof.
  unfold spec_byte. f_equal. apply map_ext. intros k.
  replace (8 * S j + k)%nat with (8 + (8 * j + k))%nat by lia.
  reflexivity.
Qed.

Lemma spec_byte_head b0 b1 b2 b3 b4 b5 b6 b7 (rest : list bool) :
  spec_byte (b0 :: b1 :: b2 :: b3 :: b4 :: b5 :: b6 :: b7 :: rest) 0
  = spec_byte [b0; b1; b2; b3; b4; b5; b6; b7] 0.
Proof. reflexivity. Qed.

Lemma spec_bytes_chunk b0 b1 b2 b3 b4 b5 b6 b7 (rest : list bool) :
  spec_bytes (b0 :: b1 :: b2 :: b3 :: b4 :: b5 :: b6 :: b7 :: rest)
  = spec_byte [b0; b1; b2; b3; b4; b5; b6; b7] 0 :: spec_bytes rest.
Proof.
  unfold spec_bytes.
  change (length (b0 :: b1 :: b2 :: b3 :: b4 :: b5 :: b6 :: b7 :: rest))
    with (8 + length rest)%nat.
  rewrite nbytes_chunk. cbn [seq map]. rewrite spec_byte_head. f_equal.
  rewrite <- seq_shift, map_map. apply map_ext. intros j.
  apply spec_byte_chunk.
Qed.

Lemma packbits_spec xs : np_packbits xs = spec_bytes (map nz xs).
Proof.
  induction xs as [xs Hlt | x0 x1 x2 x3 x4 x5 x6 x7 rest IH] using list_ind8.
  - apply packbits_short, Hlt.
  - rewrite packbits_chunk, IH. cbn [map]. rewrite spec_bytes_chunk.
    reflexivity.
Qed.

Lemma spec_byte_range bits j : is_byte (spec_byte bits j).
Proof.
  unfold is_byte, spec_byte. cbn [seq map fold_right].
  repeat match goal with
         | |- context [bit_weight ?b _] =>
             match b with
             | true => fail 1
             | false => fail 1
             | _ => destruct b
             end
         end; cbn; lia.
Qed.

Lemma spec_bytes_range bits : Forall is_byte (spec_bytes bits).
Proof.
  unfold spec_bytes. apply List.Forall_forall. intros b Hb.
  apply in_map_iff in Hb. destruct Hb as [j [<- _]]. apply spec_byte_range.
Qed.


(** Reinterpreting a byte as int8 and dumping it changes nothing. *)
Lemma tobytes_astype bs :
  Forall is_byte bs -> tobytes (map astype_int8 bs) = bs.
Proof.
  induction 1 as [| b bs Hb _ IH]; [reflexivity |].
  cbn [map tobytes] in *. unfold tobytes in IH. rewrite IH. f_equal.
  unfold astype_int8, is_byte in *. rewrite (Z.mod_small b) by lia.
  destruct (b <? 128) eqn:E.
  - apply Z.mod_small. lia.
  - apply Z.ltb_ge in E.
    replace (b - 256) with (b + (-1) * 256) by lia.
    rewrite Z.mod_add by lia. apply Z.mod_small. lia.
Qed.

(** A boolean property checked on [0 .. n-1] holds on that range. *)
Lemma forallb_below (P : Z -> bool) (n : nat) :
  forallb P (map Z.of_nat (seq 0 n)) = true ->
  forall z, 0 <= z < Z.of_nat n -> P z = true.
Proof.
  intros Hall z Hz. rewrite forallb_forall in Hall. apply Hall.
  apply in_map_iff. exists (Z.to_nat z). split; [lia |].
  apply in_seq. lia.
Qed.

Lemma hexdigit_lower n : 0 <= n < 16 -> hexdigit n = lower_hex_digit n.
Proof.
  intros H. apply Ascii.eqb_eq.
  apply (forallb_below
           (fun n => Ascii.eqb (hexdigit n) (lower_hex_digit n)) 16);
    [vm_compute; reflexivity | exact H].
Qed.


Lemma byte_nibbles b :
  is_byte b ->
  Z.shiftr b 4 = b / 16 /\ Z.land b 15 = b mod 16 /\
  0 <= b / 16 < 16 /\ 0 <= b mod 16 < 16.
Proof.
  unfold is_byte. intros H. split; [| split; [| split]].
  - rewrite Z.shiftr_div_pow2 by lia. reflexivity.
  - change 15 with (Z.ones 4). rewrite Z.land_ones by lia. reflexivity.
  - split; [apply Z.div_pos; lia | apply Z.div_lt_upper_bound; lia].
  - apply Z.mod_pos_bound. lia.
Qed.

Lemma bytes_hex_lower bs : Forall is_byte bs -> bytes_hex bs = lower_hex bs.
Proof.
  induction 1 as [| b bs Hb _ IH]; [reflexivity |].
  destruct (byte_nibbles b Hb) as (Hs & Hl & Hhi & Hlo).
  cbn [bytes_hex lower_hex]. rewrite Hs, Hl, IH.
  rewrite !hexdigit_lower by assumption. reflexivity.
Qed.

Lemma binary_vector_spec v : binary_vector v = sign_hex v.
Proof.
  unfold binary_vector, sign_hex.
  rewrite packbits_spec, nz_where.
  rewrite tobytes_astype by apply spec_bytes_range.
  apply bytes_hex_lower, spec_bytes_range.
Qed.

Lemma to_bit_vectors_loop_app embedding acc :
  to_bit_vectors_loop embedding acc = acc ++ map binary_vector embedding.
Proof.
  revert acc. induction embedding as [| v rest IH]; intros acc; cbn.
  - symmetry. apply app_nil_r.
  - rewrite IH, <- app_assoc. reflexivity.
Qed.

Lemma to_bit_vectors_map embedding :
  to_bit_vectors embedding = map binary_vector embedding.
Proof. unfold to_bit_vectors. apply to_bit_vectors_loop_app. Qed.

(** *** Decoding *)








(** *** Claims about the binarizer *)

(** C1: [to_bit_vectors] returns one hexadecimal string per input vector,
    in the same order (position [i] of the output is the string of
    position [i] of the input, and there is an output exactly where there
    is an input); the string of a vector is its sign pattern, a component
    strictly greater than zero giving bit 1 and any other component bit 0,
    packed big-endian into bytes and written in lowercase hex. *)
Theorem to_bit_vectors_sign_hex (embedding : list (list float)) :
  to_bit_vectors embedding = map sign_hex embedding
  /\ length (to_bit_vectors embedding) = length embedding
  /\ forall i : nat, to_bit_vectors embedding !! i = sign_hex <$> embedding !! i.
Proof.
  rewrite to_bit_vectors_map.
  assert (E : map binary_vector embedding = map sign_hex embedding)
    by (apply map_ext, binary_vector_spec).
  rewrite E. split; [reflexivity | split].
  - apply length_map.
  - intros i. apply list_lookup_fmap.
Qed.



(** The magnitudes are lost: vectors that differ only in magnitude have
    the same string. *)
Example binary_vector_forgets_magnitude :
  binary_vector [1.5; -2]%float = binary_vector [300; -0.125]%float.
Proof. vm_compute. reflexivity. Qed.

(** The string depends on the signs of the components only. *)
Lemma binary_vector_sign_only (v1 v2 : list float) :
  map sign_bit v1 = map sign_bit v2 -> binary_vector v1 = binary_vector v2.
Proof.
  intros H. rewrite !binary_vector_spec. unfold sign_hex. rewrite H.
  reflexivity.
Qed.




End BinarizerProofs.

(** ** The indexer: [index_document] *)

Section IndexerProofs.
Import Py Notebook Trace.
Local Open Scope string_scope.
Local Open Scope list_scope.
Local Open Scope Z_scope.

Ltac run_py :=
  unfold index_document, time_sleep, lookup_global, print, call,
    Es.index, Es.exists_, Es.search,
    bind, ret, raise, try_except, lift, log, next_fault, get_docs, put_doc;
  cbn -[is_bound Z.pow Z.mul].

Lemma count_app p (a b : list event) :
  Trace.count p (a ++ b) = (Trace.count p a + Trace.count p b)%nat.
Proof. unfold Trace.count. rewrite List.filter_app, length_app. reflexivity. Qed.

(** [time] is not among the notebook's global names. *)
Lemma time_not_bound : is_bound notebook_globals "time" = false.
Proof. vm_compute. reflexivity. Qed.

(** A first failed write, in a namespace without [time]: the warning is
    printed, then looking [time] up raises [NameError]. *)
Lemma index_document_fault_unbound globals index doc_id document
    retries initial_backoff docs e rest tr :
  is_bound globals "time" = false ->
  1 < retries ->
  index_document globals index doc_id document retries initial_backoff
    {| es_docs := docs; es_faults := Some e :: rest; trace := tr |}
  = (Raised (NameError "time"),
     {| es_docs := docs; es_faults := rest;
        trace := tr ++ [EvIndex index doc_id document false;
                        EvPrint (MsgWarn doc_id 1 e)] |}).
Proof.
  intros Hunbound Hretries. unfold index_document.
  destruct (Z.to_nat retries) as [| remaining] eqn:E; [lia |].
  cbn [index_document_loop]. run_py.
  destruct (1 <? retries) eqn:E1; [| apply Z.ltb_ge in E1; lia].
  run_py. rewrite Hunbound. cbn. rewrite <- app_assoc. reflexivity.
Qed.

(** *** The retry loop where [time] is bound

    With the name [time] bound (an [import time] in the namespace), the
    loop retries after each failure that is not the last attempt's. *)

Lemma index_document_loop_failures globals index doc_id document
    retries initial_backoff :
  is_bound globals "time" = true ->
  0 <= initial_backoff ->
  forall errs attempt remaining docs tail tr,
    1 <= attempt ->
    attempt + Z.of_nat (length errs) <= retries ->
    index_document_loop globals index doc_id document retries initial_backoff
      attempt (length errs + remaining)
      {| es_docs := docs; es_faults := map Some errs ++ tail; trace := tr |}
    = index_document_loop globals index doc_id document retries
        initial_backoff (attempt + Z.of_nat (length errs)) remaining
        {| es_docs := docs; es_faults := tail;
           trace := tr ++ Trace.failed_attempts index doc_id document
                            initial_backoff attempt errs |}.
Proof.
  intros Hbound Hb errs.
  induction errs as [| e errs IH]; intros attempt remaining docs tail tr Ha Hle.
  - cbn. rewrite Z.add_0_r, app_nil_r. reflexivity.
  - cbn [length Nat.add map app index_document_loop Trace.failed_attempts].
    cbn [length] in Hle. run_py.
    destruct (attempt <? retries) eqn:E1; [| apply Z.ltb_ge in E1; lia].
    run_py. rewrite Hbound.
    assert (Hw : 0 <= initial_backoff * 2 ^ (attempt - 1))
      by (apply Z.mul_nonneg_nonneg; [lia | apply Z.pow_nonneg; lia]).
    destruct (initial_backoff * 2 ^ (attempt - 1) <? 0) eqn:E2;
      [apply Z.ltb_lt in E2; lia |].
    cbn -[Z.pow Z.mul]. rewrite IH by lia.
    f_equal; [lia |]. f_equal. rewrite <- !app_assoc. reflexivity.
Qed.

(** The durations slept by retried failures: [initial_backoff * 2^(k-1)]
    after the failure of attempt [k]. *)
Lemma sleeps_failed_attempts index doc_id document initial_backoff errs :
  forall attempt,
    Trace.sleeps (Trace.failed_attempts index doc_id document
                    initial_backoff attempt errs)
    = map (fun k => initial_backoff * 2 ^ (attempt + Z.of_nat k - 1))
        (seq 0 (length errs)).
Proof.
  induction errs as [| e errs IH]; intros attempt; [reflexivity |].
  cbn [Trace.failed_attempts Trace.sleeps flat_map app length seq map].
  rewrite Z.add_0_r. f_equal.
  change (flat_map _ ?l) with (Trace.sleeps l).
  rewrite IH, <- seq_shift, map_map. apply map_ext. intros k.
  do 2 f_equal. lia.
Qed.

Lemma count_failed_attempts index doc_id document initial_backoff errs :
  forall attempt,
    Trace.count Trace.is_write
      (Trace.failed_attempts index doc_id document initial_backoff attempt errs)
    = length errs.
Proof.
  unfold Trace.count.
  induction errs as [| e errs IH]; intros attempt; [reflexivity |].
  cbn. rewrite IH. reflexivity.
Qed.

(** [N] failures, fewer than [retries], then a success: the write result
    is returned, the document is stored and the sleeps are geometric. *)
Lemma index_document_retries_then_succeeds globals index doc_id document
    retries initial_backoff errs docs tail tr :
  is_bound globals "time" = true ->
  0 <= initial_backoff ->
  Z.of_nat (length errs) < retries ->
  index_document globals index doc_id document retries initial_backoff
    {| es_docs := docs; es_faults := map Some errs ++ None :: tail;
       trace := tr |}
  = (Returned
       (Some {| Es.wr_index := index; Es.wr_id := doc_id;
                Es.wr_result :=
                  if bool_decide (is_Some (docs !! (index, doc_id)))
                  then Es.updated else Es.created |}),
     {| es_docs := <[(index, doc_id) := document]> docs;
        es_faults := tail;
        trace := tr ++ Trace.failed_attempts index doc_id document
                         initial_backoff 1 errs
                    ++ [EvIndex index doc_id document true] |}).
Proof.
  intros Hbound Hb HN. unfold index_document.
  replace (Z.to_nat retries)
    with (length errs + S (Z.to_nat retries - length errs - 1))%nat by lia.
  rewrite index_document_loop_failures by (assumption || lia).
  cbn [index_document_loop]. run_py. rewrite <- app_assoc. reflexivity.
Qed.

(** Failures on every one of the [retries] attempts: the error of the
    last attempt is raised again, after exactly [retries] requests. *)
Lemma index_document_exhausted globals index doc_id document
    retries initial_backoff errs e_last docs tail tr :
  is_bound globals "time" = true ->
  0 <= initial_backoff ->
  retries = Z.of_nat (length errs) + 1 ->
  index_document globals index doc_id document retries initial_backoff
    {| es_docs := docs; es_faults := map Some errs ++ Some e_last :: tail;
       trace := tr |}
  = (Raised e_last,
     {| es_docs := docs; es_faults := tail;
        trace := tr ++ Trace.failed_attempts index doc_id document
                         initial_backoff 1 errs
                    ++ [EvIndex index doc_id document false;
                        EvPrint (MsgFailed doc_id retries e_last)] |}).
Proof.
  intros Hbound Hb HN. unfold index_document.
  replace (Z.to_nat retries) with (length errs + 1)%nat by lia.
  rewrite index_document_loop_failures by (assumption || lia).
  cbn [index_document_loop]. run_py.
  destruct (1 + Z.of_nat (length errs) <? retries) eqn:E1;
    [apply Z.ltb_lt in E1; lia |].
  run_py. rewrite <- !app_assoc. reflexivity.
Qed.

Lemma sleeps_app (a b : list event) :
  Trace.sleeps (a ++ b) = Trace.sleeps a ++ Trace.sleeps b.
Proof. unfold Trace.sleeps. apply flat_map_app. Qed.

(** The retry policy where [time] is bound: after [N < retries] failures
    the write result is returned, and the sleep that follows failure
    number [k+1] lasts [initial_backoff * 2^k]. *)
Corollary index_document_backoff_geometric globals index doc_id document
    retries initial_backoff errs docs tail :
  is_bound globals "time" = true ->
  0 <= initial_backoff ->
  Z.of_nat (length errs) < retries ->
  let run := index_document globals index doc_id document retries
               initial_backoff
               {| es_docs := docs; es_faults := map Some errs ++ None :: tail;
                  trace := [] |} in
  (exists r, fst run = Returned (Some r))
  /\ es_docs (snd run) !! (index, doc_id) = Some document
  /\ Trace.count Trace.is_write (trace (snd run)) = S (length errs)
  /\ Trace.sleeps (trace (snd run))
     = map (fun k => initial_backoff * 2 ^ Z.of_nat k) (seq 0 (length errs)).
Proof.
  intros Hbound Hb HN run. subst run.
  rewrite index_document_retries_then_succeeds by assumption.
  cbn [fst snd es_docs trace app]. split; [eauto | split; [| split]].
  - apply lookup_insert_eq.
  - rewrite count_app, count_failed_attempts. cbn. lia.
  - rewrite sleeps_app, sleeps_failed_attempts. cbn [Trace.sleeps flat_map].
    rewrite app_nil_r. apply map_ext. intros k. do 2 f_equal. lia.
Qed.

(** Without a positive number of attempts nothing is sent. *)
Lemma index_document_no_attempt globals index doc_id document
    retries initial_backoff w :
  retries <= 0 ->
  index_document globals index doc_id document retries initial_backoff w
  = (Returned None, w).
Proof.
  intros H. unfold index_document.
  replace (Z.to_nat retries) with 0%nat by lia. reflexivity.
Qed.

(** *** What a call of [index_document] can do to the index

    Whatever the outcomes of the requests: the trace grows, no document
    other than [(index, doc_id)] is written, and that one is written
    successfully at most once, exactly when it is stored. *)

Lemma write_effect_none key w evs w' :
  trace w' = trace w ++ evs ->
  es_docs w' = es_docs w ->
  (forall key', Trace.count (Trace.is_write_ok key') evs = 0%nat) ->
  write_effect key w evs w'.
Proof. intros Ht Hd Hc. split; [exact Ht | split; [auto | left; auto]]. Qed.

Lemma write_effect_prepend key w w1 w' pre evs :
  trace w1 = trace w ++ pre ->
  es_docs w1 = es_docs w ->
  (forall key', Trace.count (Trace.is_write_ok key') pre = 0%nat) ->
  write_effect key w1 evs w' ->
  write_effect key w (pre ++ evs) w'.
Proof.
  intros Ht Hd Hpre (Ht' & Hother & Hkey).
  split; [| split].
  - rewrite Ht', Ht, <- app_assoc. reflexivity.
  - intros key' Hne. rewrite count_app, Hpre, Hother by assumption. reflexivity.
  - rewrite count_app, Hpre, <- Hd. exact Hkey.
Qed.

Lemma index_document_loop_effect globals index doc_id document
    retries initial_backoff :
  forall remaining attempt w,
    exists evs,
      write_effect (index, doc_id) w evs
        (snd (index_document_loop globals index doc_id document retries
                initial_backoff attempt remaining w)).
Proof.
  induction remaining as [| remaining IH]; intros attempt [docs faults tr].
  - exists []. apply write_effect_none; cbn; auto using app_nil_r.
  - cbn [index_document_loop]. run_py.
    assert (Hok : write_effect (index, doc_id)
                    {| es_docs := docs; es_faults := faults; trace := tr |}
                    [EvIndex index doc_id document true]
                    {| es_docs := <[(index, doc_id) := document]> docs;
                       es_faults := tl faults;
                       trace := tr ++ [EvIndex index doc_id document true] |}).
    { split; [reflexivity | split].
      - intros key' Hne. unfold Trace.count. cbn.
        rewrite bool_decide_eq_false_2 by congruence. reflexivity.
      - right. split; [| eauto]. unfold Trace.count. cbn.
        rewrite bool_decide_eq_true_2 by reflexivity. reflexivity. }
    destruct faults as [| [e |] rest]; cbn -[Z.pow Z.mul];
      [eexists; exact Hok | | eexists; exact Hok].
    destruct (attempt <? retries); run_py.
    + destruct (is_bound globals "time"); cbn -[Z.pow Z.mul].
      * destruct (initial_backoff * 2 ^ (attempt - 1) <? 0);
          cbn -[Z.pow Z.mul].
        -- eexists. apply write_effect_none; cbn;
             [rewrite <- app_assoc; reflexivity | reflexivity | reflexivity].
        -- match goal with
           | |- context [index_document_loop _ _ _ _ _ _ ?a _ ?w1] =>
               destruct (IH a w1) as [evs Hevs]
           end.
           eexists.
           eapply (write_effect_prepend _ _ _ _
                     [EvIndex index doc_id document false;
                      EvPrint (MsgWarn doc_id attempt e);
                      EvSleep (initial_backoff * 2 ^ (attempt - 1))]);
             [| | | exact Hevs]; cbn -[Z.pow Z.mul];
             [rewrite <- !app_assoc; reflexivity | reflexivity | reflexivity].
      * eexists. apply write_effect_none; cbn;
          [rewrite <- app_assoc; reflexivity | reflexivity | reflexivity].
    + eexists. apply write_effect_none; cbn;
        [rewrite <- app_assoc; reflexivity | reflexivity | reflexivity].
Qed.

End IndexerProofs.

(** ** [process_file] and the indexing run *)

Section ProcessFileProofs.
Import Py Notebook Trace.
Local Open Scope string_scope.
Local Open Scope list_scope.
Local Open Scope Z_scope.

Variable pool_sequence : Z -> list (list float) -> list (list float).
Variable float32 : float -> float.
Variable globals : list string.

Local Abbreviation process_file :=
  (Notebook.process_file pool_sequence float32 globals).
Local Abbreviation executor_map :=
  (Notebook.executor_map pool_sequence float32 globals).

Ltac run_py :=
  unfold index_document, time_sleep, lookup_global, print, call,
    Es.index, Es.exists_, Es.search,
    bind, ret, raise, try_except, lift, log, next_fault, get_docs, put_doc;
  cbn -[is_bound Z.pow Z.mul].

(** [pool_vectors] hands the whole sequence, rounded by [torch.tensor],
    to the pooler built with factor 3 and returns what it gives. *)
Lemma pool_vectors_adapter vectors :
  pool_vectors pool_sequence float32 vectors
  = pool_sequence 3 (map (map float32) vectors).
Proof. reflexivity. Qed.

Lemma process_file_present file_name vectors docs faults tr :
  is_Some (docs !! (INDEX_NAME, file_name)) ->
  process_file file_name vectors
    {| es_docs := docs; es_faults := faults; trace := tr |}
  = (exists_outcome faults,
     {| es_docs := docs; es_faults := tl faults;
        trace := tr ++ [EvExists INDEX_NAME file_name] |}).
Proof.
  intros Hin. unfold Notebook.process_file. run_py.
  destruct faults as [| [e |] rest]; cbn;
    rewrite ?bool_decide_eq_true_2 by exact Hin; reflexivity.
Qed.

Lemma snd_bind_ret {A B} (m : M A) (f : A -> B) w :
  snd (bind m (fun a => ret (f a)) w) = snd (m w).
Proof. unfold bind, ret. destruct (m w) as [[a | e] w']; reflexivity. Qed.

Lemma process_file_effect file_name vectors w :
  exists evs,
    write_effect (INDEX_NAME, file_name) w evs
      (snd (process_file file_name vectors w))
    /\ (Trace.count (Trace.is_write_ok (INDEX_NAME, file_name)) evs = 1%nat ->
        es_docs w !! (INDEX_NAME, file_name) = None).
Proof.
  destruct w as [docs faults tr].
  destruct (docs !! (INDEX_NAME, file_name)) as [d |] eqn:Hd.
  - rewrite process_file_present by eauto.
    exists [EvExists INDEX_NAME file_name]. split.
    + apply write_effect_none; reflexivity.
    + unfold Trace.count. cbn. discriminate.
  - assert (Hraise : forall e rest,
              faults = Some e :: rest ->
              snd (process_file file_name vectors
                     {| es_docs := docs; es_faults := faults; trace := tr |})
              = {| es_docs := docs; es_faults := rest;
                   trace := tr ++ [EvExists INDEX_NAME file_name] |}).
    { intros e rest ->. reflexivity. }
    assert (Hgo : forall rest,
              faults = [] /\ rest = [] \/ faults = None :: rest ->
              snd (process_file file_name vectors
                     {| es_docs := docs; es_faults := faults; trace := tr |})
              = snd (index_document globals INDEX_NAME file_name
                       {| pooled_col_pali_vectors :=
                            Binarizer.to_bit_vectors
                              (pool_vectors pool_sequence float32 vectors) |}
                       default_retries default_initial_backoff
                       {| es_docs := docs; es_faults := rest;
                          trace := tr ++ [EvExists INDEX_NAME file_name;
                                          EvCall "pool_vectors";
                                          EvCall "to_bit_vectors"] |})).
    { intros rest Hf. unfold Notebook.process_file.
      destruct Hf as [[-> ->] | ->];
        unfold call, Es.exists_, bind at 1 2 3 4 5 6 7 8, next_fault, log,
          get_docs, ret at 1 2 3; cbn -[index_document];
        rewrite bool_decide_eq_false_2
          by (rewrite Hd; intros [? ?]; discriminate);
        cbn -[index_document];
        rewrite <- !app_assoc;
        apply (snd_bind_ret _ (fun _ => tt)). }
    destruct faults as [| [e |] rest].
    + rewrite (Hgo []) by auto.
      destruct (index_document_loop_effect globals INDEX_NAME file_name
                  {| pooled_col_pali_vectors :=
                       Binarizer.to_bit_vectors
                         (pool_vectors pool_sequence float32 vectors) |}
                  default_retries default_initial_backoff
                  (Z.to_nat default_retries) 1
                  {| es_docs := docs; es_faults := [];
                     trace := tr ++ [EvExists INDEX_NAME file_name;
                                     EvCall "pool_vectors";
                                     EvCall "to_bit_vectors"] |})
        as [evs Hevs].
      eexists. split; [| intros _; exact Hd].
      eapply write_effect_prepend; [| | | exact Hevs]; reflexivity.
    + rewrite (Hraise e rest) by reflexivity.
      exists [EvExists INDEX_NAME file_name]. split; [| intros _; exact Hd].
      apply write_effect_none; reflexivity.
    + rewrite (Hgo rest) by auto.
      destruct (index_document_loop_effect globals INDEX_NAME file_name
                  {| pooled_col_pali_vectors :=
                       Binarizer.to_bit_vectors
                         (pool_vectors pool_sequence float32 vectors) |}
                  default_retries default_initial_backoff
                  (Z.to_nat default_retries) 1
                  {| es_docs := docs; es_faults := rest;
                     trace := tr ++ [EvExists INDEX_NAME file_name;
                                     EvCall "pool_vectors";
                                     EvCall "to_bit_vectors"] |})
        as [evs Hevs].
      eexists. split; [| intros _; exact Hd].
      eapply write_effect_prepend; [| | | exact Hevs]; reflexivity.
Qed.

(** *** A document is written at most once *)

Lemma process_file_once key file_name vectors w :
  exists evs,
    trace (snd (process_file file_name vectors w)) = trace w ++ evs
    /\ indexed_at_most_once key w evs (snd (process_file file_name vectors w)).
Proof.
  destruct (process_file_effect file_name vectors w)
    as (evs & (Ht & Hother & Hkey) & Hnew).
  exists evs. split; [exact Ht |]. split.
  - destruct Hkey as [[_ ->] | [_ [d ->]]]; [auto |].
    intros Hin. rewrite lookup_insert_is_Some.
    destruct (decide ((INDEX_NAME, file_name) = key)); auto.
  - destruct (decide (key = (INDEX_NAME, file_name))) as [-> | Hne].
    + destruct Hkey as [[Hc _] | [Hc [d Hd]]]; [left; exact Hc | right].
      split; [exact Hc | split; [auto |]].
      rewrite Hd, lookup_insert_is_Some. auto.
    + left. apply Hother, Hne.
Qed.

Lemma executor_map_once key items :
  forall w,
    exists evs,
      trace (snd (executor_map items w)) = trace w ++ evs
      /\ indexed_at_most_once key w evs (snd (executor_map items w)).
Proof.
  induction items as [| [file_name vectors] items IH]; intros w.
  - exists []. cbn. split; [symmetry; apply app_nil_r |].
    split; [auto | left; reflexivity].
  - cbn [Notebook.executor_map].
    destruct (process_file_once key file_name vectors w)
      as (evs1 & Ht1 & Hmono1 & H1).
    destruct (process_file file_name vectors w) as [r w1] eqn:E.
    cbn [snd] in *. rewrite snd_bind_ret.
    destruct (IH w1) as (evs2 & Ht2 & Hmono2 & H2).
    exists (evs1 ++ evs2). split; [| split].
    + rewrite Ht2, Ht1, <- app_assoc. reflexivity.
    + auto.
    + rewrite count_app.
      destruct H1 as [-> | (-> & Hnone & Hin1)].
      * destruct H2 as [-> | (-> & Hnone2 & Hin2)]; [left; reflexivity |].
        right. split; [reflexivity | split; [| exact Hin2]].
        destruct (es_docs w !! key) as [d0 |] eqn:Ew; [| reflexivity].
        destruct Hmono1 as [d1 Hd1]; [eauto | congruence].
      * destruct H2 as [-> | (_ & Hnone2 & _)].
        -- right. split; [reflexivity | split; [exact Hnone | auto]].
        -- destruct Hin1 as [d Hd]. congruence.
Qed.

(** *** Re-running over documents that are all stored *)

Lemma executor_map_present items :
  forall docs faults tr,
    List.Forall (fun item => is_Some (docs !! (INDEX_NAME, fst item))) items ->
    snd (executor_map items
           {| es_docs := docs; es_faults := faults; trace := tr |})
    = {| es_docs := docs;
         es_faults := skipn (length items) faults;
         trace := tr ++ map (fun item => EvExists INDEX_NAME (fst item)) items |}.
Proof.
  induction items as [| [file_name vectors] items IH];
    intros docs faults tr Hall.
  - cbn. rewrite app_nil_r. reflexivity.
  - apply List.Forall_cons_iff in Hall. destruct Hall as [Hin Hall].
    cbn [Notebook.executor_map fst].
    rewrite process_file_present by exact Hin.
    rewrite snd_bind_ret, IH by exact Hall.
    cbn [length map]. rewrite <- app_assoc.
    f_equal. destruct faults; [rewrite skipn_nil |]; reflexivity.
Qed.

Lemma exists_events_quiet (items : list (string * list (list float))) :
  Trace.count Trace.is_write
    (map (fun item => EvExists INDEX_NAME (fst item)) items) = 0%nat
  /\ Trace.calls
       (map (fun item => EvExists INDEX_NAME (fst item)) items) = [].
Proof.
  unfold Trace.count, Trace.calls.
  induction items as [| item items [IH1 IH2]]; [split; reflexivity |].
  cbn. split; assumption.
Qed.

(** C4: for a document identifier already in the index, [process_file]
    only asks the engine whether it exists and returns: the trace gains
    that one request, nothing is pooled, binarized or written, and the
    stored documents are unchanged (if the existence request itself
    fails, its error is raised, again without any write).  Re-running
    the indexing step over documents that are all stored sends no write.
    In any run, from any state, a document is written successfully at
    most once, and not at all if it was stored at the start. *)
Theorem process_file_skips_indexed
    (items : list (string * list (list float))) (w : world)
    (Hpresent : List.Forall
                  (fun item => is_Some (es_docs w !! (INDEX_NAME, fst item)))
                  items) :
  List.Forall
    (fun item =>
       process_file (fst item) (snd item) w
       = (exists_outcome (es_faults w),
          {| es_docs := es_docs w; es_faults := tl (es_faults w);
             trace := trace w ++ [EvExists INDEX_NAME (fst item)] |}))
    items
  /\ (exists evs,
        snd (executor_map items w)
        = {| es_docs := es_docs w;
             es_faults := skipn (length items) (es_faults w);
             trace := trace w ++ evs |}
        /\ Trace.count Trace.is_write evs = 0%nat
        /\ Trace.calls evs = [])
  /\ (forall items' w0 id,
        exists evs,
          trace (snd (executor_map items' w0)) = trace w0 ++ evs
          /\ (Trace.count (Trace.is_write_ok (INDEX_NAME, id)) evs <= 1)%nat
          /\ (is_Some (es_docs w0 !! (INDEX_NAME, id)) ->
              Trace.count (Trace.is_write_ok (INDEX_NAME, id)) evs = 0%nat)).
Proof.
  destruct w as [docs faults tr]. cbn [es_docs es_faults trace] in *.
  split; [| split].
  - eapply List.Forall_impl; [| exact Hpresent].
    intros [file_name vectors] Hin. apply process_file_present, Hin.
  - eexists. split; [apply executor_map_present, Hpresent |].
    apply exists_events_quiet.
  - intros items' w0 id.
    destruct (executor_map_once (INDEX_NAME, id) items' w0)
      as (evs & Ht & _ & Hcount).
    exists evs. split; [exact Ht | split].
    + destruct Hcount as [-> | [-> _]]; lia.
    + intros [d Hd]. destruct Hcount as [-> | (_ & Hnone & _)];
        [reflexivity | congruence].
Qed.

End ProcessFileProofs.

Lemma process_file_skips_indexed_witness :
  List.Forall
    (fun item =>
       is_Some (Py.es_docs Samples.indexed_ab
                  !! (Notebook.INDEX_NAME, fst item)))
    Samples.items_ab
  /\ exists evs,
       snd (Notebook.executor_map Samples.pool_stub Samples.float32_stub
              Notebook.notebook_globals Samples.items_ab Samples.indexed_ab)
       = {| Py.es_docs := Py.es_docs Samples.indexed_ab;
            Py.es_faults := [];
            Py.trace := Py.trace Samples.indexed_ab ++ evs |}
       /\ Trace.count Trace.is_write evs = 0%nat
       /\ Trace.calls evs = [].
Proof.
  assert (H : List.Forall
                (fun item =>
                   is_Some (Py.es_docs Samples.indexed_ab
                              !! (Notebook.INDEX_NAME, fst item)))
                Samples.items_ab).
  { repeat constructor; eexists; vm_compute; reflexivity. }
  split; [exact H |].
  exact (proj1 (proj2 (process_file_skips_indexed
                         Samples.pool_stub Samples.float32_stub
                         Notebook.notebook_globals
                         Samples.items_ab Samples.indexed_ab H))).
Defined.

(** ** [index_document] in the notebook's namespace *)

Section NotebookIndexer.
Import Py Notebook Samples.
Local Open Scope string_scope.
Local Open Scope list_scope.
Local Open Scope Z_scope.

(** C2, on the code: one transient failure followed by a success, with
    the default ten attempts and initial backoff 1.  The claim has the
    write result returned after one sleep of 1; the notebook never
    imports [time], so the call ends in [NameError] right after the
    warning, the second request is never sent and nothing is stored.
    With [time] bound the same call returns the write result after a
    sleep of 1. *)
Theorem index_document_one_failure_NameError :
  index_document notebook_globals INDEX_NAME "a.png" doc_a
    default_retries default_initial_backoff fails_once
  = (Raised (NameError "time"),
     {| es_docs := ∅; es_faults := [None];
        trace := [EvIndex INDEX_NAME "a.png" doc_a false;
                  EvPrint (MsgWarn "a.png" 1 unavailable)] |})
  /\ index_document ("time" :: notebook_globals) INDEX_NAME "a.png" doc_a
       default_retries default_initial_backoff fails_once
     = (Returned (Some {| Es.wr_index := INDEX_NAME; Es.wr_id := "a.png";
                          Es.wr_result := Es.created |}),
        {| es_docs := {[ (INDEX_NAME, "a.png") := doc_a ]};
           es_faults := [];
           trace := [EvIndex INDEX_NAME "a.png" doc_a false;
                     EvPrint (MsgWarn "a.png" 1 unavailable);
                     EvSleep 1;
                     EvIndex INDEX_NAME "a.png" doc_a true] |}).
Proof. split; vm_compute; reflexivity. Qed.

(** C3, on the code: a write that fails on every attempt, with the
    default ten attempts.  The claim has ten requests and then the last
    write error raised again; the notebook sends one request and raises
    [NameError] (for the unbound [time]) instead.  With [time] bound
    there are ten requests, nine sleeps, and the write error is raised
    again. *)
Theorem index_document_all_failures_one_attempt :
  let run := index_document notebook_globals INDEX_NAME "a.png" doc_a
               default_retries default_initial_backoff fails_ten_times in
  let run_bound := index_document ("time" :: notebook_globals) INDEX_NAME
                     "a.png" doc_a default_retries default_initial_backoff
                     fails_ten_times in
  fst run = Raised (NameError "time")
  /\ Trace.count Trace.is_write (trace (snd run)) = 1%nat
  /\ fst run_bound = Raised unavailable
  /\ Trace.count Trace.is_write (trace (snd run_bound)) = 10%nat
  /\ Trace.sleeps (trace (snd run_bound)) = [1; 2; 4; 8; 16; 32; 64; 128; 256].
Proof.
  cbv zeta. repeat split; vm_compute; reflexivity.
Qed.

End NotebookIndexer.

(** In the notebook every first failure of a call that may retry ends
    the call: whatever the index, the document and the later outcomes. *)
Corollary index_document_notebook_first_failure index doc_id document
    retries initial_backoff docs e rest tr :
  1 < retries ->
  fst (Notebook.index_document Notebook.notebook_globals index doc_id
         document retries initial_backoff
         {| Py.es_docs := docs; Py.es_faults := Some e :: rest;
            Py.trace := tr |})
  = Py.Raised (Py.NameError "time").
Proof.
  intros H.
  rewrite (index_document_fault_unbound Notebook.notebook_globals index
             doc_id document retries initial_backoff docs e rest tr
             time_not_bound H).
  reflexivity.
Qed.

(** ** The query path *)

Section QueryProofs.
Import Py Notebook.
Local Open Scope string_scope.
Local Open Scope list_scope.
Local Open Scope Z_scope.

Variable col_pali : list string -> list (list (list float)).
Variable rank :
  gmap (string * string) document -> string -> es_query -> list string.

Lemma search_cell_run query first others docs faults tr :
  col_pali [query] = first :: others ->
  search_cell col_pali rank query
    {| es_docs := docs; es_faults := faults; trace := tr |}
  = match faults with
    | Some e :: _ =>
        (Raised e,
         {| es_docs := docs; es_faults := tl faults;
            trace := tr ++ [EvSearch INDEX_NAME (make_es_query first) false] |})
    | _ =>
        (Returned (rank docs INDEX_NAME (make_es_query first)),
         {| es_docs := docs; es_faults := tl faults;
            trace := tr ++ [EvSearch INDEX_NAME (make_es_query first) true;
                            EvDisplay
                              (gallery
                                 (rank docs INDEX_NAME
                                    (make_es_query first)))] |})
    end.
Proof.
  intros Henc. unfold search_cell, create_col_pali_query_vectors.
  rewrite Henc.
  unfold Es.search, bind, lift, ret, raise, log, next_fault, get_docs.
  destruct faults as [| [e |] rest]; cbn -[gallery];
    rewrite <- ?app_assoc; reflexivity.
Qed.

(** C8: a search request is sent to the engine exactly once; there is no
    sleep and no second request; when the engine fails, its error is what
    the caller gets, right after that one request. *)
Theorem search_failure_surfaces (query : string)
    (first : list (list float)) (others : list (list (list float)))
    (w : world) (Henc : col_pali [query] = first :: others) :
  exists evs,
    trace (snd (search_cell col_pali rank query w)) = trace w ++ evs
    /\ Trace.count Trace.is_search evs = 1%nat
    /\ Trace.sleeps evs = []
    /\ es_faults (snd (search_cell col_pali rank query w)) = tl (es_faults w)
    /\ forall e rest,
         es_faults w = Some e :: rest ->
         fst (search_cell col_pali rank query w) = Raised e
         /\ evs = [EvSearch INDEX_NAME (make_es_query first) false].
Proof.
  destruct w as [docs faults tr].
  rewrite (search_cell_run query first others docs faults tr Henc).
  destruct faults as [| [e |] rest]; cbn [snd fst trace es_faults];
    eexists; (split; [reflexivity |]);
    (split; [reflexivity |]); (split; [reflexivity |]);
    (split; [reflexivity |]); intros e' rest' [= <- <-]; split; reflexivity.
Qed.

(** C6, as the code has it: the encoder runs the model on the batch of
    the one query and returns the first element of the result, that is
    the whole sequence of token vectors of the query; this sequence,
    with no pooling and no binarization, is the [query_vector] parameter
    of the one search request. *)
Theorem query_vectors_passed_whole (query : string)
    (first : list (list float)) (others : list (list (list float)))
    (w : world) (Henc : col_pali [query] = first :: others) :
  create_col_pali_query_vectors col_pali query = Returned first
  /\ exists ok rest,
       trace (snd (search_cell col_pali rank query w))
       = trace w ++ EvSearch INDEX_NAME (make_es_query first) ok :: rest
       /\ q_query_vector (make_es_query first) = first
       /\ q_script_source (make_es_query first)
          = "maxSimDotProduct(params.query_vector, 'pooled_col_pali_vectors')"
       /\ Trace.calls (EvSearch INDEX_NAME (make_es_query first) ok :: rest)
          = [].
Proof.
  split.
  - unfold create_col_pali_query_vectors. rewrite Henc. reflexivity.
  - destruct w as [docs faults tr].
    rewrite (search_cell_run query first others docs faults tr Henc).
    destruct faults as [| [e |] rest]; cbn [snd trace];
      do 2 eexists; repeat split.
Qed.

End QueryProofs.

Lemma search_failure_surfaces_witness :
  Samples.col_pali_stub ["What do companies use for recruiting?"%string]
  = [[0.5; -1]; [2; 0.25]]%float :: []
  /\ exists evs,
       Py.trace (snd (Notebook.search_cell Samples.col_pali_stub
                        Samples.rank_stub
                        "What do companies use for recruiting?"
                        Samples.fails_once))
       = Py.trace Samples.fails_once ++ evs
       /\ Trace.count Trace.is_search evs = 1%nat
       /\ Trace.sleeps evs = [].
Proof.
  split; [reflexivity |].
  destruct (search_failure_surfaces Samples.col_pali_stub Samples.rank_stub
              "What do companies use for recruiting?"
              [[0.5; -1]; [2; 0.25]]%float [] Samples.fails_once eq_refl)
    as (evs & Ht & Hc & Hs & _).
  exists evs. repeat split; assumption.
Defined.

Lemma query_vectors_passed_whole_witness :
  Samples.col_pali_stub ["What do companies use for recruiting?"%string]
  = [[0.5; -1]; [2; 0.25]]%float :: []
  /\ Notebook.create_col_pali_query_vectors Samples.col_pali_stub
       "What do companies use for recruiting?"
     = Py.Returned [[0.5; -1]; [2; 0.25]]%float.
Proof.
  split; [reflexivity |].
  exact (proj1 (query_vectors_passed_whole Samples.col_pali_stub
                  Samples.rank_stub "What do companies use for recruiting?"
                  [[0.5; -1]; [2; 0.25]]%float [] Samples.fails_once eq_refl)).
Defined.

(** C6 as stated fails: for a model that gives a query two token
    vectors, the encoder's result is both of them, not a single vector. *)
Lemma query_vectors_not_single :
  Notebook.create_col_pali_query_vectors Samples.col_pali_stub
    "What do companies use for recruiting?"
  = Py.Returned [[0.5; -1]; [2; 0.25]]%float
  /\ ~ (exists v : list float,
          Notebook.create_col_pali_query_vectors Samples.col_pali_stub
            "What do companies use for recruiting?"
          = Py.Returned [v]).
Proof.
  split; [reflexivity |].
  intros [v Hv]. vm_compute in Hv. discriminate Hv.
Qed.
